(** * PasswordGenerator: the charset builder and the password generator

    A shallow embedding of [build_charset] and [generate_password] of
    main.py, and the properties of the specification proved about them.

    Python values are modelled as follows.
    - [str] is [string]; a one-character string drawn from a sequence is an
      [ascii].
    - The [dict] of character classes is an association list in insertion
      order, updated with [dict_setitem].
    - [int] is [Z]; [len] results are [nat].
    - An exception is a value of [exn]; a computation that may raise returns
      an [outcome].
    - The operating system's entropy behind [secrets] and
      [random.SystemRandom] is an abstract source threaded through the
      generator. *)

From Stdlib Require Import ZArith Lia Ascii.
From Stdlib Require String.
From stdpp Require Import base list strings pretty.

Local Open Scope Z_scope.
Local Open Scope nat_scope.

(** ** Exceptions *)

Inductive exn : Type :=
  | ValueError (msg : string)
  | IndexError (msg : string)
  | KeyError (key : string).

(** The exception class, which is what an [except] clause matches on. *)
Inductive exn_class : Type := ValueError_class | IndexError_class | KeyError_class.

Definition class_of (e : exn) : exn_class :=
  match e with
  | ValueError _ => ValueError_class
  | IndexError _ => IndexError_class
  | KeyError _ => KeyError_class
  end.

(** [str(e)] as printed by [main] for a [ValueError]. *)
Definition message (e : exn) : string :=
  match e with
  | ValueError msg => msg
  | IndexError msg => msg
  | KeyError key => key
  end.

Inductive outcome (A : Type) : Type :=
  | Return (a : A)
  | Raise (e : exn).
Arguments Return {A} a.
Arguments Raise {A} e.

#[global] Instance outcome_ret : MRet outcome := fun A a => Return a.
#[global] Instance outcome_bind : MBind outcome := fun A B k m =>
  match m with
  | Return a => k a
  | Raise e => Raise e
  end.

Notation "x <- m ;; k" := (mbind (fun x => k) m)
  (at level 100, m at next level, right associativity).

(** ** Strings and dicts *)

Module PyString.
(** Constants of Python's [string] module. *)
Definition ascii_lowercase : string := "abcdefghijklmnopqrstuvwxyz".
Definition ascii_uppercase : string := "ABCDEFGHIJKLMNOPQRSTUVWXYZ".
Definition digits : string := "0123456789".
End PyString.

(** Truth value of a [str]: only the empty string is false. *)
Definition truthy (s : string) : bool :=
  match s with
  | EmptyString => false
  | String _ _ => true
  end.

(** [seq[i]] on a string, for a non-negative index. *)
Definition str_getitem (seq : string) (i : nat) : outcome ascii :=
  match String.get i seq with
  | Some c => Return c
  | None => Raise (IndexError "string index out of range")
  end.

(** ["".join(chars)] for a list of one-character strings. *)
Definition join (chars : list ascii) : string := String.string_of_list_ascii chars.

(** [c] occurs in [s]. *)
Definition char_in (c : ascii) (s : string) : Prop :=
  In c (String.list_ascii_of_string s).

Definition dict : Type := list (string * string).

(** [d[key] = value]: replaces the value of an existing key in place, and
    appends a new key at the end. *)
Fixpoint dict_setitem (key value : string) (d : dict) : dict :=
  match d with
  | [] => [(key, value)]
  | (k, v) :: d' =>
      if String.eqb k key then (k, value) :: d'
      else (k, v) :: dict_setitem key value d'
  end.

(** [d[key]]. *)
Fixpoint dict_getitem (key : string) (d : dict) : outcome string :=
  match d with
  | [] => Raise (KeyError key)
  | (k, v) :: d' => if String.eqb k key then Return v else dict_getitem key d'
  end.

(** [d.values()], in insertion order. *)
Definition values (d : dict) : list string := map snd d.

(** [len(d)]. *)
Definition len (d : dict) : nat := List.length d.

(** ** build_charset *)

Definition build_charset
    (use_lower use_upper use_digits use_symbols : bool) : outcome (dict * string) :=
  let classes : dict := [] in
  let pool : string := "" in
  let '(classes, pool) :=
    if use_lower then
      (dict_setitem "lower" PyString.ascii_lowercase classes,
       pool +:+ PyString.ascii_lowercase)
    else (classes, pool) in
  let '(classes, pool) :=
    if use_upper then
      (dict_setitem "upper" PyString.ascii_uppercase classes,
       pool +:+ PyString.ascii_uppercase)
    else (classes, pool) in
  let '(classes, pool) :=
    if use_digits then
      (dict_setitem "digits" PyString.digits classes,
       pool +:+ PyString.digits)
    else (classes, pool) in
  if use_symbols then
    let classes := dict_setitem "symbols" "!@#$%^&*()-_=+[]{};:,.<>/?" classes in
    symbols <- dict_getitem "symbols" classes ;;
    mret (classes, pool +:+ symbols)
  else mret (classes, pool).


(** ** The charset builder as the specification words it *)

Module Spec.
(** The characters with codes [first], [first + 1], ..., [count] of them. *)
Definition ascii_range (first : ascii) (count : nat) : string :=
  String.string_of_list_ascii (map ascii_of_nat (seq (nat_of_ascii first) count)).

Definition lower : string := ascii_range "a"%char 26.
Definition upper : string := ascii_range "A"%char 26.
Definition digits : string := ascii_range "0"%char 10.
Definition symbols : string := "!@#$%^&*()-_=+[]{};:,.<>/?".

(** The four classes in their fixed order, each with its flag. *)
Definition table (use_lower use_upper use_digits use_symbols : bool)
    : list (bool * (string * string)) :=
  [ (use_lower, ("lower", lower));
    (use_upper, ("upper", upper));
    (use_digits, ("digits", digits));
    (use_symbols, ("symbols", symbols)) ].

(** Only the enabled entries, order kept. *)
Definition class_set (use_lower use_upper use_digits use_symbols : bool) : dict :=
  map snd (filter (fun e => Is_true (fst e))
                  (table use_lower use_upper use_digits use_symbols)).

(** The concatenation of the class contents, in dict order. *)
Definition pool_of (classes : dict) : string :=
  foldr String.append "" (values classes).
End Spec.

(** Every value of the dict is a non-empty string. *)
Definition nonempty_classes (classes : dict) : Prop :=
  Forall (fun kv => snd kv <> "") classes.

(** ** The secure random source *)

(** [random.SystemRandom] and [secrets] both read the operating system's
    entropy.  [randbelow n] is [SystemRandom._randbelow(n)]: for [n > 0] a
    number below [n].  Which number is left open: every property below
    holds for every source. *)
Class SystemRandom (S : Type) : Type := {
  randbelow : nat -> S -> nat * S;
  randbelow_lt : forall n s, 0 < n -> fst (randbelow n s) < n
}.

(** A source for running the generator on examples: a tape of raw samples,
    each reduced modulo the bound; an exhausted tape yields 0. *)
Record Tape : Type := { samples : list nat }.

Definition tape_randbelow (n : nat) (t : Tape) : nat * Tape :=
  match samples t with
  | [] => (0, t)
  | r :: rest => (r mod n, {| samples := rest |})
  end.

(** Computations that draw from the source and may raise. *)
Definition M (S A : Type) : Type := S -> outcome A * S.

#[global] Instance M_ret {S} : MRet (M S) := fun A a s => (Return a, s).
#[global] Instance M_bind {S} : MBind (M S) := fun A B k m s =>
  match m s with
  | (Return a, s') => k a s'
  | (Raise e, s') => (Raise e, s')
  end.

Definition lift {S A} (o : outcome A) : M S A := fun s => (o, s).
Definition raise {S A} (e : exn) : M S A := lift (Raise e).

(** [[f(x) for x in xs]] *)
Fixpoint list_comp {S A B} (f : A -> M S B) (xs : list A) : M S (list B) :=
  match xs with
  | [] => mret []
  | x :: xs' => y <- f x ;; ys <- list_comp f xs' ;; mret (y :: ys)
  end.

(** [range(n)]: empty when [n <= 0]. *)
Definition range (n : Z) : list Z := map Z.of_nat (seq 0 (Z.to_nat n)).

(** ** Lists as mutable arrays *)

Definition list_getitem {A} (x : list A) (i : nat) : outcome A :=
  match x !! i with
  | Some a => Return a
  | None => Raise (IndexError "list index out of range")
  end.

Definition list_setitem {A} (x : list A) (i : nat) (a : A) : outcome (list A) :=
  if decide (i < length x) then Return (<[i:=a]> x)
  else Raise (IndexError "list assignment index out of range").

(** [x[i], x[j] = x[j], x[i]]: the right-hand side is read first, then
    [x[i]] and [x[j]] are assigned in that order. *)
Definition swap {A} (x : list A) (i j : nat) : outcome (list A) :=
  xj <- list_getitem x j ;;
  xi <- list_getitem x i ;;
  x <- list_setitem x i xj ;;
  list_setitem x j xi.

(** ** The generator *)

Definition empty_pool_error : exn :=
  ValueError "Character pool is empty. Enable at least one character type.".

Definition insufficient_length_error (classes : dict) : exn :=
  ValueError ("Length must be at least " +:+ pretty (len classes)
              +:+ " to include one of each selected type.").

(** [remaining = length - len(password_chars)] *)
Definition remaining_draws (length : Z) (password_chars : list ascii) : Z :=
  (length - Z.of_nat (List.length password_chars))%Z.

Section Generator.
Context {S : Type} `{SystemRandom S}.

Definition randbelow_m (n : nat) : M S nat :=
  fun s => let '(r, s') := randbelow n s in (Return r, s').

(** [secrets.choice(seq)], which is [SystemRandom.choice]. *)
Definition choice (seq : string) : M S ascii :=
  if String.length seq =? 0
  then raise (IndexError "Cannot choose from an empty sequence")
  else i <- randbelow_m (String.length seq) ;; lift (str_getitem seq i).

(** The loop of [Random.shuffle]: for [i] from [len(x) - 1] down to 1,
    exchange [x[i]] with [x[j]] for a random [j <= i]. *)
Fixpoint shuffle_loop {A} (i : nat) (x : list A) : M S (list A) :=
  match i with
  | 0 => mret x
  | Datatypes.S i' =>
      j <- randbelow_m (i + 1) ;;
      x <- lift (swap x i j) ;;
      shuffle_loop i' x
  end.

(** [_sysrand.shuffle(x)]; the list after the call is the result. *)
Definition shuffle {A} (x : list A) : M S (list A) :=
  shuffle_loop (List.length x - 1) x.

(** [[secrets.choice(chars) for chars in classes.values()]] *)
Definition mandatory_chars (classes : dict) : M S (list ascii) :=
  list_comp choice (values classes).

Definition generate_password (length : Z) (classes : dict) (pool : string)
    : M S string :=
  if negb (truthy pool) then raise empty_pool_error
  else if (length <? Z.of_nat (len classes))%Z
  then raise (insufficient_length_error classes)
  else
    password_chars <- mandatory_chars classes ;;
    let remaining := remaining_draws length password_chars in
    filler <- list_comp (fun _ => choice pool) (range remaining) ;;
    let password_chars := password_chars ++ filler in
    password_chars <- shuffle password_chars ;;
    mret (join password_chars).
End Generator.

(** The tape is a source: a sample reduced modulo [n] is below [n]. *)
#[global, refine] Instance Tape_source : SystemRandom Tape :=
  {| randbelow := tape_randbelow |}.
Proof.
  intros n t Hn. unfold tape_randbelow.
  destruct (samples t) as [|r rest]; simpl; [lia|].
  apply Nat.mod_upper_bound. lia.
Defined.

Definition tape (l : list nat) : Tape := {| samples := l |}.

(** [returns m s Q]: run from the source state [s], the computation [m]
    raises nothing and returns a value that satisfies [Q]. *)
Definition returns {S A} (m : M S A) (s : S) (Q : A -> Prop) : Prop :=
  exists a s', m s = (Return a, s') /\ Q a.

(** [raises_only c m]: whenever [m] raises, the exception is of class [c]. *)
Definition raises_only {S A} (c : exn_class) (m : M S A) : Prop :=
  forall s e s', m s = (Raise e, s') -> class_of e = c.

(** What a password generated from valid arguments is made of: the
    mandatory characters [cs], one per class and in dict order, and the
    [filler] drawn from the pool, rearranged. *)
Definition assembled (length : Z) (classes : dict) (pool : string)
    (pw : string) : Prop :=
  exists cs filler,
    Forall2 (fun chars c => char_in c chars) (values classes) cs /\
    Forall (fun c => char_in c pool) filler /\
    List.length filler = Z.to_nat (length - Z.of_nat (len classes)) /\
    Permutation (String.list_ascii_of_string pw) (cs ++ filler).

(** ** Arguments used in the examples *)

Definition lower_digits : dict :=
  [("lower", PyString.ascii_lowercase); ("digits", PyString.digits)].

Definition lower_digits_pool : string := "abcdefghijklmnopqrstuvwxyz0123456789".

Definition lower_upper : dict :=
  [("lower", PyString.ascii_lowercase); ("upper", PyString.ascii_uppercase)].

Definition lower_upper_pool : string :=
  "abcdefghijklmnopqrstuvwxyzABCDEFGHIJKLMNOPQRSTUVWXYZ".

(** ** The interactive layer *)

(** [ask_yes_no] and [main] talk to a terminal.  Standard input is the list
    of the lines still to be read; what the program writes, and what it
    puts on the clipboard, is logged in order. *)

Definition nl : string := String "010"%char "".

Inductive event : Type :=
  | Prompt (text : string)   (* [input(text)] shows [text], no line end *)
  | Print (text : string)    (* [print(text)] *)
  | Copy (text : string).    (* [pyperclip.copy(text)] went through *)

Record World (E : Type) : Type := mkWorld {
  stdin : list string;
  log : list event;
  entropy : E
}.
Arguments mkWorld {E} stdin log entropy.
Arguments stdin {E} w.
Arguments log {E} w.
Arguments entropy {E} w.

(** What ends a computation early: an exception of the generator's kinds,
    or the [EOFError] of [input] at the end of standard input. *)
Inductive raised : Type :=
  | Py (e : exn)
  | EOFError.

Inductive io_outcome (A : Type) : Type :=
  | Done (a : A)
  | Abort (r : raised).
Arguments Done {A} a.
Arguments Abort {A} r.

Definition IO (E A : Type) : Type := World E -> io_outcome A * World E.

#[global] Instance IO_ret {E} : MRet (IO E) := fun A a w => (Done a, w).
#[global] Instance IO_bind {E} : MBind (IO E) := fun A B k m w =>
  match m w with
  | (Done a, w') => k a w'
  | (Abort r, w') => (Abort r, w')
  end.

Notation "'run' m ;; k" := (mbind (fun _ => k) m)
  (at level 100, m at next level, right associativity).

(** What the program takes from Python and from the machine it runs on:
    [str.strip], [str.lower], [int] on a string, which returns an integer
    or raises [ValueError], and the [pyperclip] module, which may be
    missing; when present, [copy] tells whether the call went through. *)
Class Runtime : Type := {
  strip : string -> string;
  lower : string -> string;
  int : string -> outcome Z;
  int_raises : forall s e, int s = Raise e -> class_of e = ValueError_class;
  pyperclip : option (string -> bool)
}.

(** [resp in (a, b, ...)] *)
Definition str_in (resp : string) (choices : list string) : bool :=
  existsb (String.eqb resp) choices.

Definition of_outcome {A} (o : outcome A) : io_outcome A :=
  match o with
  | Return a => Done a
  | Raise e => Abort (Py e)
  end.

Definition emit {E} (ev : event) : IO E unit :=
  fun w => (Done tt, mkWorld (stdin w) (log w ++ [ev]) (entropy w)).

Definition print {E} (text : string) : IO E unit := emit (Print text).

(** [input(prompt)]: the prompt is shown, then a line is read.  The lines
    of standard input are taken as text already decoded: a line whose bytes
    do not decode, on which [input] raises [UnicodeDecodeError], is not
    among the inputs of this model. *)
Definition input {E} (prompt : string) : IO E string :=
  fun w =>
    let shown := log w ++ [Prompt prompt] in
    match stdin w with
    | [] => (Abort EOFError, mkWorld [] shown (entropy w))
    | line :: rest => (Done line, mkWorld rest shown (entropy w))
    end.

(** A call that neither reads, writes nor draws. *)
Definition pure {E A} (o : outcome A) : IO E A := fun w => (of_outcome o, w).

(** A call into the generator: it draws from the entropy of the world. *)
Definition draw {E A} (m : M E A) : IO E A :=
  fun w =>
    let '(o, e) := m (entropy w) in
    (of_outcome o, mkWorld (stdin w) (log w) e).

(** [try: body  except ValueError as e: handler] *)
Definition try_except_ValueError {E A}
    (body : IO E A) (handler : exn -> IO E A) : IO E A :=
  fun w =>
    match body w with
    | (Abort (Py e), w') =>
        match class_of e with
        | ValueError_class => handler e w'
        | _ => (Abort (Py e), w')
        end
    | r => r
    end.

Definition banner : string :=
  "Password Generator — Secure, configurable, simple" +:+ nl.

Definition reminder : string := "Please answer 'y' or 'n'.".

Section Interactive.
Context {E : Type} `{SystemRandom E} `{Runtime}.

(** One pass of the loop of [ask_yes_no] on the line read: [Some b] is
    [return b], [None] is the reminder and another pass. *)
Definition answer (default : bool) (line : string) : option bool :=
  let resp := lower (strip line) in
  if negb (truthy resp) then Some default
  else if str_in resp ["y"; "yes"] then Some true
  else if str_in resp ["n"; "no"] then Some false
  else None.

(** [while True:] each pass reads one line, so the loop runs along the
    lines to come. *)
Fixpoint ask_yes_no_loop (question : string) (default : bool)
    (lines : list string) (shown : list event)
    : io_outcome bool * list string * list event :=
  let shown := shown ++ [Prompt question] in
  match lines with
  | [] => (Abort EOFError, [], shown)
  | line :: lines' =>
      match answer default line with
      | Some b => (Done b, lines', shown)
      | None =>
          ask_yes_no_loop question default lines' (shown ++ [Print reminder])
      end
  end.

Definition ask_yes_no (prompt : string) (default : bool) : IO E bool :=
  fun w =>
    let default_str : string := if default then "Y/n" else "y/N" in
    let question := prompt +:+ " (" +:+ default_str +:+ "): " in
    let '(r, lines, shown) :=
      ask_yes_no_loop question default (stdin w) (log w) in
    (r, mkWorld lines shown (entropy w)).

(** The first [try] of [main]; [None] is [return]. *)
Definition read_length : IO E (option Z) :=
  try_except_ValueError
    (line <- input "Enter password length (suggested 12-24): " ;;
     let length_input := strip line in
     length <- pure (int length_input) ;;
     if (length <=? 0)%Z
     then run print "Length must be a positive integer." ;; mret None
     else mret (Some length))
    (fun _ =>
       run print "Invalid input. Please enter a whole number for length." ;;
       mret None).

(** [int(how_many_input) if how_many_input else 1] *)
Definition how_many_of (how_many_input : string) : outcome Z :=
  if truthy how_many_input then int how_many_input else Return 1%Z.

(** The second [try] of [main]; [None] is [return]. *)
Definition read_how_many : IO E (option Z) :=
  try_except_ValueError
    (line <- input "How many passwords to generate? (default 1): " ;;
     let how_many_input := strip line in
     how_many <- pure (how_many_of how_many_input) ;;
     if (how_many <=? 0)%Z
     then run print "Number of passwords must be at least 1." ;; mret None
     else mret (Some how_many))
    (fun _ => run print "Invalid number. Exiting." ;; mret None).

(** [for i in range(how_many):] with [pwd] the variable the loop assigns,
    unbound before the first pass.  [None] is [return] from [main];
    [Some pwd] is the end of the loop. *)
Fixpoint password_loop (length : Z) (classes : dict) (pool : string)
    (passes : list Z) (pwd : option string) : IO E (option (option string)) :=
  match passes with
  | [] => mret (Some pwd)
  | _ :: passes' =>
      made <- try_except_ValueError
                (pw <- draw (generate_password length classes pool) ;;
                 mret (Some pw))
                (fun e => run print ("Error: " +:+ message e) ;; mret None) ;;
      match made with
      | None => mret None
      | Some pw =>
          run print pw ;;
          password_loop length classes pool passes' (Some pw)
      end
  end.

(** The clipboard step: [copy_ok].  An unbound [pwd] would raise inside
    the inner [try], where [except Exception] takes it. *)
Definition copy_last (pwd : option string) : IO E bool :=
  match pyperclip with
  | None => mret false
  | Some copy =>
      match pwd with
      | None => mret false
      | Some pw => if copy pw then run emit (Copy pw) ;; mret true
                   else mret false
      end
  end.

Definition main : IO E unit :=
  run print banner ;;
  length <- read_length ;;
  match length with
  | None => mret tt
  | Some length =>
      use_lower <- ask_yes_no "Include lowercase letters?" true ;;
      use_upper <- ask_yes_no "Include uppercase letters?" true ;;
      use_digits <- ask_yes_no "Include digits (0-9)?" true ;;
      use_symbols <- ask_yes_no "Include symbols (e.g. !@#$%)?" true ;;
      built <- pure (build_charset use_lower use_upper use_digits use_symbols) ;;
      let '(classes, pool) := built in
      if negb (truthy pool)
      then print "You must enable at least one character type. Exiting."
      else
        how_many <- read_how_many ;;
        match how_many with
        | None => mret tt
        | Some how_many =>
            run print (nl +:+ "Generated password(s):") ;;
            pwd <- password_loop length classes pool (range how_many) None ;;
            match pwd with
            | None => mret tt
            | Some pwd =>
                copy_ok <- copy_last pwd ;;
                run (if copy_ok : bool
                     then print (nl +:+ "The last password was copied to your clipboard.")
                     else print (nl +:+ "Tip: install 'pyperclip' (`pip install pyperclip`) to enable clipboard copy.")) ;;
                print "Done."
            end
        end
  end.
End Interactive.

(** ** A runtime for the examples *)

(** The characters Python takes for blanks, among the first 256. *)
Definition is_space (c : ascii) : bool :=
  let n := nat_of_ascii c in
  ((9 <=? n) && (n <=? 13)) || ((28 <=? n) && (n <=? 32))
  || (n =? 133) || (n =? 160).

Fixpoint drop_spaces (cs : list ascii) : list ascii :=
  match cs with
  | [] => []
  | c :: cs' => if is_space c then drop_spaces cs' else cs
  end.

Definition chars_strip (cs : list ascii) : list ascii :=
  rev (drop_spaces (rev (drop_spaces cs))).

Definition example_strip (s : string) : string :=
  String.string_of_list_ascii (chars_strip (String.list_ascii_of_string s)).

(** Lower case among the first 256 characters. *)
Definition char_lower (c : ascii) : ascii :=
  let n := nat_of_ascii c in
  if ((65 <=? n) && (n <=? 90)) || ((192 <=? n) && (n <=? 214))
     || ((216 <=? n) && (n <=? 222))
  then ascii_of_nat (n + 32) else c.

Definition example_lower (s : string) : string :=
  String.string_of_list_ascii (map char_lower (String.list_ascii_of_string s)).

Fixpoint digits_value (acc : Z) (cs : list ascii) : option Z :=
  match cs with
  | [] => Some acc
  | c :: cs' =>
      let n := nat_of_ascii c in
      if (48 <=? n) && (n <=? 57)
      then digits_value (10 * acc + Z.of_nat (n - 48))%Z cs'
      else None
  end.

(** The numerals the examples use: an optional sign and decimal digits. *)
Definition parse_int (s : string) : option Z :=
  let unsigned (sign : Z) (ds : list ascii) : option Z :=
    match ds with
    | [] => None
    | _ :: _ => n <- digits_value 0 ds ;; Some (sign * n)%Z
    end in
  match String.list_ascii_of_string s with
  | "-"%char :: ds => unsigned (-1)%Z ds
  | "+"%char :: ds => unsigned 1%Z ds
  | ds => unsigned 1%Z ds
  end.

(** [int] on those numerals.  Python's [int] takes more (an underscore
    between digits); the theorems do not depend on this choice. *)
Definition example_int (s : string) : outcome Z :=
  match parse_int s with
  | Some n => Return n
  | None =>
      Raise (ValueError ("invalid literal for int() with base 10: '"
                         +:+ s +:+ "'"))
  end.

Definition example_runtime (clip : option (string -> bool)) : Runtime.
Proof.
  refine {| strip := example_strip; lower := example_lower;
            int := example_int; pyperclip := clip |}.
  intros s e. unfold example_int.
  destruct (parse_int s); [discriminate|by intros [= <-]].
Defined.

(** A clipboard that takes everything. *)
Definition working_clipboard : option (string -> bool) := Some (fun _ => true).

Definition demo_runtime : Runtime := example_runtime working_clipboard.

Definition world (lines : list string) (draws : list nat) : World Tape :=
  mkWorld lines [] (tape draws).

(** ** Statements about the interactive layer *)

(** The text [ask_yes_no] shows for a prompt and a default. *)
Definition question_of (prompt : string) (default : bool) : string :=
  prompt +:+ (if default then " (Y/n): " else " (y/N): ").

(** What is shown for the lines that are no answer: the question and the
    reminder, once per line. *)
Definition retries (question : string) (bad : list string) : list event :=
  concat (map (fun _ => [Prompt question; Print reminder]) bad).




(** What [main] shows before the questions, and the four questions. *)
Definition opening : list event :=
  [Print banner; Prompt "Enter password length (suggested 12-24): "].

Definition questions : list event :=
  [Prompt "Include lowercase letters? (Y/n): ";
   Prompt "Include uppercase letters? (Y/n): ";
   Prompt "Include digits (0-9)? (Y/n): ";
   Prompt "Include symbols (e.g. !@#$%)? (Y/n): "].

Definition how_many_prompt : event :=
  Prompt "How many passwords to generate? (default 1): ".

Definition heading : event := Print (nl +:+ "Generated password(s):").

(** What the clipboard step leaves in the log for the last password. *)
Definition closing `{Runtime} (last_pw : string) : list event :=
  match pyperclip with
  | Some copy =>
      if copy last_pw
      then [Copy last_pw;
            Print (nl +:+ "The last password was copied to your clipboard.");
            Print "Done."]
      else [Print (nl +:+ "Tip: install 'pyperclip' (`pip install pyperclip`) to enable clipboard copy.");
            Print "Done."]
  | None =>
      [Print (nl +:+ "Tip: install 'pyperclip' (`pip install pyperclip`) to enable clipboard copy.");
       Print "Done."]
  end.

(** What [main] promises of a password it prints: the length asked for, a
    character of every class, characters of the pool only. *)
Definition good_password (length : Z) (classes : dict) (pool : string)
    (pw : string) : Prop :=
  Z.of_nat (String.length pw) = length /\
  (forall name chars, In (name, chars) classes ->
     exists c, char_in c chars /\ char_in c pw) /\
  (forall c, char_in c pw -> char_in c pool).

(** The variable [pwd] after the loop has printed [pws]. *)
Definition last_bound (pwd : option string) (pws : list string)
    : option string :=
  match last pws with
  | Some pw => Some pw
  | None => pwd
  end.

(** What is left of [main] once the charset is built. *)
Definition main_rest {E} `{SystemRandom E} `{Runtime}
    (length : Z) (classes : dict) (pool : string) : IO E unit :=
  if negb (truthy pool)
  then print "You must enable at least one character type. Exiting."
  else
    how_many <- read_how_many ;;
    match how_many with
    | None => mret tt
    | Some how_many =>
        run print (nl +:+ "Generated password(s):") ;;
        pwd <- password_loop length classes pool (range how_many) None ;;
        match pwd with
        | None => mret tt
        | Some pwd =>
            copy_ok <- copy_last pwd ;;
            run (if copy_ok : bool
                 then print (nl +:+ "The last password was copied to your clipboard.")
                 else print (nl +:+ "Tip: install 'pyperclip' (`pip install pyperclip`) to enable clipboard copy.")) ;;
            print "Done."
        end
    end.

(** * Properties of the charset builder *)

(** The literals of the source are the ranges the specification names. *)
Lemma class_literals :
  PyString.ascii_lowercase = Spec.lower /\
  PyString.ascii_uppercase = Spec.upper /\
  PyString.digits = Spec.digits.
Proof. repeat split; reflexivity. Qed.

Lemma class_lengths :
  String.length Spec.lower = 26 /\ String.length Spec.upper = 26 /\
  String.length Spec.digits = 10 /\ String.length Spec.symbols = 26.
Proof. repeat split; reflexivity. Qed.

(** Reading back a key that was just set. *)
Lemma dict_getitem_setitem key value d :
  dict_getitem key (dict_setitem key value d) = Return value.
Proof.
  induction d as [|[k v] d IH]; simpl.
  - by rewrite String.eqb_refl.
  - destruct (String.eqb k key) eqn:E; simpl; by rewrite ?E.
Qed.

(** C3: for every combination of the four flags, [build_charset] returns
    the enabled classes only, in the order lower, upper, digits, symbols,
    with contents a-z, A-Z, 0-9 and the 26 listed symbols, and the pool is
    the concatenation of those contents in the same order. *)
Theorem build_charset_spec (use_lower use_upper use_digits use_symbols : bool) :
  let classes := Spec.class_set use_lower use_upper use_digits use_symbols in
  build_charset use_lower use_upper use_digits use_symbols
    = Return (classes, Spec.pool_of classes) /\
  String.length Spec.lower = 26 /\ String.length Spec.upper = 26 /\
  String.length Spec.digits = 10 /\ String.length Spec.symbols = 26.
Proof.
  split; [|exact class_lengths].
  destruct use_lower, use_upper, use_digits, use_symbols; reflexivity.
Qed.

(** C7: the pool of [build_charset] is non-empty exactly when its dict of
    classes is, and every class string in the dict is non-empty. *)
Theorem build_charset_nonempty (use_lower use_upper use_digits use_symbols : bool) :
  exists classes pool,
    build_charset use_lower use_upper use_digits use_symbols
      = Return (classes, pool) /\
    (pool <> "" <-> classes <> []) /\
    nonempty_classes classes.
Proof.
  destruct use_lower, use_upper, use_digits, use_symbols;
    (eexists _, _; split; [vm_compute; reflexivity|]; split;
     [split; congruence
     |unfold nonempty_classes; repeat (constructor; [simpl; discriminate|]);
      constructor]).
Qed.


(** * Strings *)

Lemma get_char_in s i c : String.get i s = Some c -> char_in c s.
Proof.
  unfold char_in. revert i.
  induction s as [|a s IH]; intros [|i] Hget; simpl in *; try discriminate.
  - left. congruence.
  - right. eauto.
Qed.

Lemma get_is_Some s i : i < String.length s -> is_Some (String.get i s).
Proof.
  revert i. induction s as [|a s IH]; intros [|i] Hi; simpl in *; try lia.
  - by eexists.
  - apply IH. lia.
Qed.

Lemma length_join chars : String.length (join chars) = List.length chars.
Proof. induction chars as [|c chars IH]; simpl; congruence. Qed.

Lemma char_in_join c chars : char_in c (join chars) <-> In c chars.
Proof.
  unfold char_in, join. by rewrite String.list_ascii_of_string_of_list_ascii.
Qed.

Lemma char_in_append c s1 s2 :
  char_in c (s1 +:+ s2) <-> char_in c s1 \/ char_in c s2.
Proof.
  unfold char_in. induction s1 as [|a s1 IH]; simpl; [tauto|].
  rewrite IH. tauto.
Qed.

Lemma truthy_nonempty s : s <> "" -> truthy s = true.
Proof. by destruct s. Qed.

Lemma length_nonempty s : s <> "" -> 0 < String.length s.
Proof. destruct s; [done|simpl; lia]. Qed.

(** The characters of a class are in the concatenation of all classes. *)
Lemma char_in_pool_of classes name chars c :
  In (name, chars) classes -> char_in c chars -> char_in c (Spec.pool_of classes).
Proof.
  unfold Spec.pool_of, values.
  induction classes as [|[k v] classes IH]; simpl; [tauto|].
  intros [E|Hin] Hc; apply char_in_append.
  - left. congruence.
  - right. auto.
Qed.

(** * Exchanging two elements of a list *)

Lemma swap_Permutation {A} (x : list A) i j :
  i < List.length x -> j < List.length x ->
  exists x', swap x i j = Return x' /\ Permutation x' x.
Proof.
  intros Hi Hj. unfold swap, list_getitem, list_setitem.
  destruct (lookup_lt_is_Some_2 x j Hj) as [xj Hxj].
  destruct (lookup_lt_is_Some_2 x i Hi) as [xi Hxi].
  rewrite Hxj, Hxi. simpl.
  rewrite decide_True by done. simpl.
  rewrite decide_True by (by rewrite length_insert).
  eexists. split; [reflexivity|].
  by apply Permutation_insert_swap.
Qed.

(** * Reasoning about computations that return *)

Section Returns.
Context {S : Type} `{SystemRandom S}.

Lemma returns_ret {A} (a : A) (s : S) (Q : A -> Prop) :
  Q a -> returns (mret a) s Q.
Proof. intros HQ. by exists a, s. Qed.

Lemma returns_bind {A B} (m : M S A) (k : A -> M S B) s (P : A -> Prop) Q :
  returns m s P ->
  (forall a s', P a -> returns (k a) s' Q) ->
  returns (a <- m ;; k a) s Q.
Proof.
  intros (a & s1 & Hm & HP) Hk.
  destruct (Hk a s1 HP) as (b & s2 & Hb & HQ).
  exists b, s2. split; [|done].
  unfold mbind, M_bind. by rewrite Hm.
Qed.

Lemma returns_mono {A} (m : M S A) s (P Q : A -> Prop) :
  returns m s P -> (forall a, P a -> Q a) -> returns m s Q.
Proof. intros (a & s' & Hm & HP) HPQ. exists a, s'. auto. Qed.

Lemma returns_lift {A} (o : outcome A) (a : A) (s : S) (Q : A -> Prop) :
  o = Return a -> Q a -> returns (lift o) s Q.
Proof. intros -> HQ. by exists a, s. Qed.

Lemma returns_randbelow n s : 0 < n -> returns (randbelow_m n) s (fun r => r < n).
Proof.
  intros Hn. unfold returns, randbelow_m.
  pose proof (randbelow_lt n s Hn) as Hlt.
  destruct (randbelow n s) as [r s']. by exists r, s'.
Qed.

(** A draw from a non-empty sequence returns one of its characters. *)
Lemma returns_choice seq s :
  seq <> "" -> returns (choice seq) s (fun c => char_in c seq).
Proof.
  intros Hne. unfold choice.
  pose proof (length_nonempty seq Hne) as Hlen.
  destruct (Nat.eqb_spec (String.length seq) 0) as [E|_]; [lia|].
  eapply returns_bind; [by apply returns_randbelow|].
  intros i s' Hi. destruct (get_is_Some seq i Hi) as [c Hc].
  eapply returns_lift.
  - unfold str_getitem. by rewrite Hc.
  - by eapply get_char_in.
Qed.

(** A comprehension returns one result per element, in order. *)
Lemma returns_list_comp {A B} (f : A -> M S B) (P : A -> Prop)
    (R : A -> B -> Prop) xs s :
  (forall x s', P x -> returns (f x) s' (R x)) ->
  Forall P xs ->
  returns (list_comp f xs) s (fun ys => Forall2 R xs ys).
Proof.
  intros Hf HP. revert s.
  induction HP as [|x xs Hx _ IH]; intros s; simpl.
  - apply returns_ret. constructor.
  - eapply returns_bind; [by apply Hf|].
    intros y s1 Hy. eapply returns_bind; [apply IH|].
    intros ys s2 Hys. apply returns_ret. by constructor.
Qed.

(** The loop of the shuffle never indexes out of range, and what it
    returns is a rearrangement of its argument. *)
Lemma returns_shuffle_loop {A} i (x : list A) s :
  i < List.length x ->
  returns (shuffle_loop i x) s (fun x' => Permutation x' x).
Proof.
  revert x s. induction i as [|i IH]; intros x s Hi; simpl.
  - by apply returns_ret.
  - eapply returns_bind; [apply returns_randbelow; lia|].
    intros j s1 Hj. cbv beta in Hj.
    destruct (swap_Permutation x (Datatypes.S i) j) as (x' & Hswap & Hperm);
      [lia..|].
    eapply (returns_bind _ _ _ (fun y => y = x'));
      [by eapply returns_lift|].
    intros ? s2 ->.
    eapply returns_mono; [apply IH|].
    + apply Permutation_length in Hperm. lia.
    + intros x3 Hx3. by rewrite Hx3, Hperm.
Qed.

Lemma returns_shuffle {A} (x : list A) s :
  returns (shuffle x) s (fun x' => Permutation x' x).
Proof.
  unfold shuffle. destruct x as [|a x].
  - simpl. by apply returns_ret.
  - apply returns_shuffle_loop. simpl. lia.
Qed.

(** A comprehension that returns has one result per element. *)
Lemma list_comp_length {A B} (f : A -> M S B) xs s ys s' :
  list_comp f xs s = (Return ys, s') -> List.length ys = List.length xs.
Proof.
  revert s ys s'. induction xs as [|x xs IH]; intros s ys s'; simpl.
  - intros [= <- _]. reflexivity.
  - unfold mbind, M_bind. destruct (f x s) as [[y|e] s1]; [|discriminate].
    destruct (list_comp f xs s1) as [[ys'|e] s2] eqn:E; [|discriminate].
    intros [= <- _]. simpl. f_equal. by eapply IH.
Qed.

(** ** Which exceptions can be raised *)

Lemma raises_only_ret {A} c (a : A) : raises_only (S := S) c (mret a).
Proof. intros s e s'. discriminate. Qed.

Lemma raises_only_bind {A B} c (m : M S A) (k : A -> M S B) :
  raises_only c m -> (forall a, raises_only c (k a)) ->
  raises_only c (a <- m ;; k a).
Proof.
  intros Hm Hk s e s'. unfold mbind, M_bind.
  destruct (m s) as [[a|e1] s1] eqn:E.
  - apply Hk.
  - intros [= <- <-]. by eapply Hm.
Qed.

Lemma raises_only_lift {A} c (o : outcome A) :
  (forall e, o = Raise e -> class_of e = c) -> raises_only (S := S) c (lift o).
Proof. intros Ho s e s' [= -> _]. by apply Ho. Qed.

Lemma raises_only_randbelow c n : raises_only c (randbelow_m n).
Proof.
  intros s e s'. unfold randbelow_m. by destruct (randbelow n s).
Qed.

Lemma raises_only_choice seq : raises_only IndexError_class (choice seq).
Proof.
  unfold choice. destruct (String.length seq =? 0).
  - apply raises_only_lift. by intros e [= <-].
  - apply raises_only_bind; [apply raises_only_randbelow|].
    intros i. apply raises_only_lift. unfold str_getitem.
    destruct (String.get i seq); [discriminate|]. by intros e [= <-].
Qed.

Lemma raises_only_list_comp {A B} c (f : A -> M S B) xs :
  (forall x, raises_only c (f x)) -> raises_only c (list_comp f xs).
Proof.
  intros Hf. induction xs as [|x xs IH]; simpl.
  - apply raises_only_ret.
  - apply raises_only_bind; [apply Hf|].
    intros y. apply raises_only_bind; [apply IH|].
    intros ys. apply raises_only_ret.
Qed.

Lemma swap_raises {A} (x : list A) i j e :
  swap x i j = Raise e -> class_of e = IndexError_class.
Proof.
  unfold swap, list_getitem, list_setitem.
  destruct (x !! j); simpl; [|by intros [= <-]].
  destruct (x !! i); simpl; [|by intros [= <-]].
  case_decide; simpl; [|by intros [= <-]].
  case_decide; [discriminate|by intros [= <-]].
Qed.

Lemma raises_only_shuffle {A} (x : list A) :
  raises_only IndexError_class (shuffle x).
Proof.
  unfold shuffle. generalize (List.length x - 1). intros i. revert x.
  induction i as [|i IH]; intros x; simpl.
  - apply raises_only_ret.
  - apply raises_only_bind; [apply raises_only_randbelow|].
    intros j. apply raises_only_bind; [|intros x'; apply IH].
    apply raises_only_lift. apply swap_raises.
Qed.
End Returns.

(** * Properties of the generator *)

Lemma length_list_ascii s :
  List.length (String.list_ascii_of_string s) = String.length s.
Proof. induction s as [|a s IH]; simpl; congruence. Qed.

Lemma length_range n : List.length (range n) = Z.to_nat n.
Proof. unfold range. by rewrite length_map, length_seq. Qed.

Lemma In_values classes chars :
  In chars (values classes) <-> exists name, In (name, chars) classes.
Proof.
  unfold values. rewrite in_map_iff. split.
  - intros ([name chars'] & <- & Hin). by exists name.
  - intros (name & Hin). by exists (name, chars).
Qed.

Section GeneratorProperties.
Context {S : Type} `{SystemRandom S}.

Lemma returns_mandatory_chars classes (s : S) :
  nonempty_classes classes ->
  returns (mandatory_chars classes) s
    (fun cs => Forall2 (fun chars c => char_in c chars) (values classes) cs).
Proof.
  intros Hne. unfold mandatory_chars.
  apply returns_list_comp with (P := fun chars => chars <> "").
  - intros chars s' Hchars. by apply returns_choice.
  - unfold values. apply Forall_map. exact Hne.
Qed.

Lemma returns_filler pool (n : Z) (s : S) :
  pool <> "" ->
  returns (list_comp (fun _ => choice pool) (range n)) s
    (fun filler => Forall (fun c => char_in c pool) filler /\
                   List.length filler = Z.to_nat n).
Proof.
  intros Hpool.
  eapply returns_mono.
  - apply returns_list_comp
      with (P := fun _ => True) (R := fun _ c => char_in c pool).
    + intros _ s' _. by apply returns_choice.
    + by apply Forall_forall.
  - intros filler HF. split.
    + eapply Forall2_Forall_r; [exact HF|]. by apply Forall_forall.
    + apply Forall2_length in HF. by rewrite <- HF, length_range.
Qed.

Lemma returns_generate_password length classes pool (s : S) :
  pool <> "" -> (Z.of_nat (len classes) <= length)%Z ->
  nonempty_classes classes ->
  returns (generate_password length classes pool) s
          (assembled length classes pool).
Proof.
  intros Hpool Hlen Hne. unfold generate_password.
  rewrite (truthy_nonempty pool Hpool). simpl.
  destruct (Z.ltb_spec length (Z.of_nat (len classes))) as [?|_]; [lia|].
  eapply returns_bind; [by apply returns_mandatory_chars|].
  intros cs s1 Hcs. cbv beta in Hcs.
  eapply returns_bind; [by apply returns_filler|].
  intros filler s2 [Hfill Hfill_len].
  eapply returns_bind; [apply returns_shuffle|].
  intros chars s3 Hperm. cbv beta in Hperm.
  apply returns_ret. exists cs, filler.
  split; [done|]. split; [done|]. split.
  - rewrite Hfill_len. unfold remaining_draws.
    apply Forall2_length in Hcs. rewrite <- Hcs.
    unfold values, len. by rewrite length_map.
  - unfold join. by rewrite String.list_ascii_of_string_of_list_ascii.
Qed.

(** ** What an assembled password satisfies *)

Lemma assembled_coverage length classes pool pw name chars :
  assembled length classes pool pw ->
  In (name, chars) classes ->
  exists c, char_in c chars /\ char_in c pw.
Proof.
  intros (cs & filler & Hcs & _ & _ & Hperm) Hin.
  assert (In chars (values classes)) as Hv by (apply In_values; eauto).
  apply list_elem_of_In, list_elem_of_lookup in Hv as [i Hi].
  destruct (Forall2_lookup_l _ _ _ _ _ Hcs Hi) as (c & Hc & Hchar).
  exists c. split; [done|].
  unfold char_in. apply list_elem_of_In. rewrite Hperm.
  apply elem_of_app. left. by eapply list_elem_of_lookup_2.
Qed.

Lemma assembled_length length classes pool pw :
  (Z.of_nat (len classes) <= length)%Z ->
  assembled length classes pool pw ->
  Z.of_nat (String.length pw) = length.
Proof.
  intros Hlen (cs & filler & Hcs & _ & Hfill & Hperm).
  rewrite <- length_list_ascii, (Permutation_length Hperm), length_app, Hfill.
  apply Forall2_length in Hcs. rewrite <- Hcs.
  unfold values. rewrite length_map. fold (len classes). lia.
Qed.

Lemma assembled_in_pool length classes pw c :
  assembled length classes (Spec.pool_of classes) pw ->
  char_in c pw -> char_in c (Spec.pool_of classes).
Proof.
  intros (cs & filler & Hcs & Hfill & _ & Hperm) Hc.
  unfold char_in in Hc. apply list_elem_of_In in Hc. rewrite Hperm in Hc.
  apply elem_of_app in Hc as [Hc|Hc].
  - apply list_elem_of_lookup in Hc as [i Hi].
    destruct (Forall2_lookup_r _ _ _ _ _ Hcs Hi) as (chars & Hchars & Hchar).
    apply list_elem_of_lookup_2, list_elem_of_In, In_values in Hchars
      as [name Hin].
    by eapply char_in_pool_of.
  - rewrite Forall_forall in Hfill. by apply Hfill.
Qed.

(** What [build_charset] returns is a dict of non-empty classes together
    with the concatenation of its values. *)
Lemma build_charset_invariants use_lower use_upper use_digits use_symbols
    classes pool :
  build_charset use_lower use_upper use_digits use_symbols
    = Return (classes, pool) ->
  nonempty_classes classes /\ pool = Spec.pool_of classes.
Proof.
  destruct use_lower, use_upper, use_digits, use_symbols;
    vm_compute; intros [= <- <-];
    (split; [repeat (constructor; [discriminate|]); constructor|reflexivity]).
Qed.

(** C1: on a non-empty pool, a length of at least the number of classes
    and classes that are all non-empty, [generate_password] returns a
    password that holds a character of every class of the dict. *)
Theorem generate_password_coverage length classes pool (src : S) :
  pool <> "" -> (Z.of_nat (len classes) <= length)%Z ->
  nonempty_classes classes ->
  exists pw src',
    generate_password length classes pool src = (Return pw, src') /\
    forall name chars, In (name, chars) classes ->
      exists c, char_in c chars /\ char_in c pw.
Proof.
  intros Hpool Hlen Hne.
  destruct (returns_generate_password length classes pool src Hpool Hlen Hne)
    as (pw & src' & Hrun & Hpw).
  exists pw, src'. split; [done|].
  intros name chars Hin. by eapply assembled_coverage.
Qed.

(** C2: on the same arguments the password returned has exactly [length]
    characters. *)
Theorem generate_password_length length classes pool (src : S) :
  pool <> "" -> (Z.of_nat (len classes) <= length)%Z ->
  nonempty_classes classes ->
  exists pw src',
    generate_password length classes pool src = (Return pw, src') /\
    Z.of_nat (String.length pw) = length.
Proof.
  intros Hpool Hlen Hne.
  destruct (returns_generate_password length classes pool src Hpool Hlen Hne)
    as (pw & src' & Hrun & Hpw).
  exists pw, src'. split; [done|]. by eapply assembled_length.
Qed.

(** C6: when the pool is the concatenation of the class strings of the
    dict, as [build_charset] makes it, every character of the password
    returned is a character of the pool. *)
Theorem generate_password_in_pool length classes pool (src : S) :
  pool = Spec.pool_of classes ->
  pool <> "" -> (Z.of_nat (len classes) <= length)%Z ->
  nonempty_classes classes ->
  exists pw src',
    generate_password length classes pool src = (Return pw, src') /\
    forall c, char_in c pw -> char_in c pool.
Proof.
  intros -> Hpool Hlen Hne.
  destruct (returns_generate_password
              length classes (Spec.pool_of classes) src Hpool Hlen Hne)
    as (pw & src' & Hrun & Hpw).
  exists pw, src'. split; [done|].
  intros c. by eapply assembled_in_pool.
Qed.

(** The builder and the generator together: whatever the flags, if the
    pool built is not empty and the length is at least the number of
    classes built, the password returned has that length, holds a character
    of every class built, and is made of characters of the pool. *)
Corollary generate_password_on_built_charset
    use_lower use_upper use_digits use_symbols classes pool length (src : S) :
  build_charset use_lower use_upper use_digits use_symbols
    = Return (classes, pool) ->
  pool <> "" -> (Z.of_nat (len classes) <= length)%Z ->
  exists pw src',
    generate_password length classes pool src = (Return pw, src') /\
    Z.of_nat (String.length pw) = length /\
    (forall name chars, In (name, chars) classes ->
       exists c, char_in c chars /\ char_in c pw) /\
    (forall c, char_in c pw -> char_in c pool).
Proof.
  intros Hbuild Hpool Hlen.
  destruct (build_charset_invariants _ _ _ _ _ _ Hbuild) as [Hne Hcat].
  destruct (returns_generate_password length classes pool src Hpool Hlen Hne)
    as (pw & src' & Hrun & Hpw).
  exists pw, src'. split; [done|]. split; [by eapply assembled_length|].
  split.
  - intros name chars Hin. by eapply assembled_coverage.
  - intros c. subst pool. by eapply assembled_in_pool.
Qed.

(** ** Failures *)

Lemma generate_password_empty_pool length classes (src : S) :
  generate_password length classes "" src = (Raise empty_pool_error, src).
Proof. reflexivity. Qed.

Lemma generate_password_short length classes pool (src : S) :
  pool <> "" -> (length < Z.of_nat (len classes))%Z ->
  generate_password length classes pool src
  = (Raise (insufficient_length_error classes), src).
Proof.
  intros Hpool Hlen. unfold generate_password.
  rewrite (truthy_nonempty pool Hpool). simpl.
  by destruct (Z.ltb_spec length (Z.of_nat (len classes))) as [_|?]; [|lia].
Qed.

Lemma error_messages_differ classes :
  message empty_pool_error <> message (insufficient_length_error classes).
Proof. discriminate. Qed.

(** C5: an empty pool fails with the empty-pool error whatever the
    length; a non-empty pool and a length below the number of classes
    fail with the length error; the pool is tested first, so an empty
    pool with too small a length still gives the empty-pool error.
    Neither failure draws from the random source. *)
Theorem generate_password_failures length classes pool (src : S) :
  (pool = "" ->
   generate_password length classes pool src = (Raise empty_pool_error, src)) /\
  (pool <> "" -> (length < Z.of_nat (len classes))%Z ->
   generate_password length classes pool src
   = (Raise (insufficient_length_error classes), src)) /\
  (pool = "" -> (length < Z.of_nat (len classes))%Z ->
   generate_password length classes pool src = (Raise empty_pool_error, src)) /\
  empty_pool_error <> insufficient_length_error classes.
Proof.
  repeat split.
  - intros ->. apply generate_password_empty_pool.
  - apply generate_password_short.
  - intros -> _. apply generate_password_empty_pool.
  - intros E. apply (error_messages_differ classes). by rewrite E.
Qed.

(** C4, as the code has it: both failures are raised as [ValueError], one
    exception class; what tells them apart is the message. *)
Theorem generate_password_error_surface
    length classes length' classes' pool' (src src' : S) :
  pool' <> "" -> (length' < Z.of_nat (len classes'))%Z ->
  exists e e',
    generate_password length classes "" src = (Raise e, src) /\
    generate_password length' classes' pool' src' = (Raise e', src') /\
    class_of e = ValueError_class /\
    class_of e' = ValueError_class /\
    message e <> message e'.
Proof.
  intros Hpool Hlen.
  exists empty_pool_error, (insufficient_length_error classes').
  split; [apply generate_password_empty_pool|].
  split; [by apply generate_password_short|].
  split; [reflexivity|]. split; [reflexivity|].
  apply error_messages_differ.
Qed.

(** On valid arguments the body after the two guards is what runs. *)
Lemma generate_password_body length classes pool :
  pool <> "" -> (Z.of_nat (len classes) <= length)%Z ->
  negb (truthy pool) = false /\
  (length <? Z.of_nat (len classes))%Z = false /\
  generate_password (S := S) length classes pool
  = (password_chars <- mandatory_chars classes ;;
     filler <- list_comp (fun _ => choice pool)
                         (range (remaining_draws length password_chars)) ;;
     password_chars <- shuffle (password_chars ++ filler) ;;
     mret (join password_chars)).
Proof.
  intros Hpool Hlen. unfold generate_password.
  rewrite (truthy_nonempty pool Hpool). simpl.
  destruct (Z.ltb_spec length (Z.of_nat (len classes))) as [?|_]; [lia|].
  done.
Qed.

Lemma generate_password_raises length classes pool :
  pool <> "" -> (Z.of_nat (len classes) <= length)%Z ->
  raises_only IndexError_class (generate_password length classes pool).
Proof.
  intros Hpool Hlen.
  destruct (generate_password_body length classes pool Hpool Hlen)
    as (_ & _ & ->).
  apply raises_only_bind.
  { apply raises_only_list_comp. apply raises_only_choice. }
  intros cs. apply raises_only_bind.
  { apply raises_only_list_comp. intros _. apply raises_only_choice. }
  intros filler. apply raises_only_bind; [apply raises_only_shuffle|].
  intros chars. apply raises_only_ret.
Qed.

(** C9, amended: on a non-empty pool, a length of at least the number of
    classes and a dict whose classes are all non-empty, the call raises
    nothing at all and returns a password.  The classes apart, the two
    guards do not fire, no [ValueError] is raised, and the number of draws
    left for the pool, whenever it is computed, is not negative. *)
Theorem generate_password_no_error length classes pool (src : S) :
  pool <> "" -> (Z.of_nat (len classes) <= length)%Z ->
  (negb (truthy pool) = false /\
   (length <? Z.of_nat (len classes))%Z = false) /\
  (forall e src',
     generate_password length classes pool src = (Raise e, src') ->
     class_of e <> ValueError_class) /\
  (forall cs src1,
     mandatory_chars classes src = (Return cs, src1) ->
     (0 <= remaining_draws length cs)%Z) /\
  (nonempty_classes classes ->
   exists cs src1 pw src',
     mandatory_chars classes src = (Return cs, src1) /\
     (0 <= remaining_draws length cs)%Z /\
     generate_password length classes pool src = (Return pw, src')).
Proof.
  intros Hpool Hlen.
  assert (forall cs src1,
            mandatory_chars classes src = (Return cs, src1) ->
            (0 <= remaining_draws length cs)%Z) as Hrem.
  { intros cs src1 Hrun. apply list_comp_length in Hrun.
    unfold remaining_draws. rewrite Hrun.
    unfold values. rewrite length_map. fold (len classes). lia. }
  split; [|split; [|split]].
  - destruct (generate_password_body length classes pool Hpool Hlen)
      as (Hg1 & Hg2 & _).
    by split.
  - intros e src' Hrun.
    rewrite (generate_password_raises length classes pool Hpool Hlen _ _ _ Hrun).
    discriminate.
  - exact Hrem.
  - intros Hne.
    destruct (returns_mandatory_chars classes src Hne) as (cs & src1 & Hcs & _).
    destruct (returns_generate_password length classes pool src Hpool Hlen Hne)
      as (pw & src' & Hrun & _).
    exists cs, src1, pw, src'. eauto.
Qed.

(** A dict with an empty class is outside the contract: the draw from
    the empty string raises. *)
Remark generate_password_empty_class (src : S) :
  generate_password 1 [("lower", "")] "a" src
  = (Raise (IndexError "Cannot choose from an empty sequence"), src).
Proof. reflexivity. Qed.
End GeneratorProperties.

(** * The generator run on a tape *)

Lemma lower_digits_nonempty : nonempty_classes lower_digits.
Proof. repeat constructor; discriminate. Qed.

(** Four characters from lower case and digits.  The draws are b, 9 for the
    classes and d, e for the pool; the shuffle exchanges positions 3 and 1,
    then 2 and 0, then 1 with itself. *)
Example generate_password_run :
  generate_password 4 lower_digits lower_digits_pool
                    (tape [1; 9; 3; 4; 5; 6; 7; 8])
  = (Return "deb9", tape [8]).
Proof. vm_compute. reflexivity. Qed.

(** With one class and length 1 there is nothing to fill and nothing to
    exchange. *)
Example generate_password_single :
  generate_password 1 [("digits", PyString.digits)] PyString.digits (tape [7])
  = (Return "7", tape []).
Proof. vm_compute. reflexivity. Qed.

(** [build(true, false, false, false)] *)
Example build_charset_lower_only :
  build_charset true false false false
  = Return ([("lower", "abcdefghijklmnopqrstuvwxyz")], "abcdefghijklmnopqrstuvwxyz").
Proof. reflexivity. Qed.

(** [build(false, false, false, false)], then [generate]. *)
Example build_charset_nothing : build_charset false false false false = Return ([], "").
Proof. reflexivity. Qed.

Example generate_password_nothing :
  generate_password 12 [] "" (tape [5]) = (Raise empty_pool_error, tape [5]).
Proof. reflexivity. Qed.

(** [generate(1, {lower, upper}, pool)] *)
Example generate_password_too_short :
  generate_password 1 lower_upper lower_upper_pool (tape [5])
  = (Raise (ValueError
       "Length must be at least 2 to include one of each selected type."),
     tape [5]).
Proof. vm_compute. reflexivity. Qed.

(** A negative length is too short for any dict. *)
Example generate_password_negative :
  generate_password (-1) lower_digits lower_digits_pool (tape [])
  = (Raise (insufficient_length_error lower_digits), tape []).
Proof. reflexivity. Qed.

(** ** The theorems at concrete arguments *)

Lemma generate_password_coverage_witness :
  exists pw src',
    generate_password 4 lower_digits lower_digits_pool (tape [1; 9; 3; 4])
    = (Return pw, src') /\
    forall name chars, In (name, chars) lower_digits ->
      exists c, char_in c chars /\ char_in c pw.
Proof.
  apply generate_password_coverage.
  - discriminate.
  - simpl. lia.
  - exact lower_digits_nonempty.
Defined.

Lemma generate_password_length_witness :
  exists pw src',
    generate_password 4 lower_digits lower_digits_pool (tape [1; 9; 3; 4])
    = (Return pw, src') /\
    Z.of_nat (String.length pw) = 4%Z.
Proof.
  apply generate_password_length.
  - discriminate.
  - simpl. lia.
  - exact lower_digits_nonempty.
Defined.

Lemma generate_password_in_pool_witness :
  exists pw src',
    generate_password 4 lower_digits lower_digits_pool (tape [1; 9; 3; 4])
    = (Return pw, src') /\
    forall c, char_in c pw -> char_in c lower_digits_pool.
Proof.
  apply generate_password_in_pool.
  - reflexivity.
  - discriminate.
  - simpl. lia.
  - exact lower_digits_nonempty.
Defined.

Lemma generate_password_failures_witness :
  generate_password 12 [] "" (tape [5]) = (Raise empty_pool_error, tape [5]) /\
  generate_password 1 lower_upper lower_upper_pool (tape [5])
  = (Raise (insufficient_length_error lower_upper), tape [5]) /\
  generate_password 1 lower_upper "" (tape [5]) = (Raise empty_pool_error, tape [5]).
Proof.
  split; [|split].
  - apply (proj1 (generate_password_failures 12 [] "" (tape [5]))).
    reflexivity.
  - apply (proj1 (proj2 (generate_password_failures
                           1 lower_upper lower_upper_pool (tape [5])))).
    + discriminate.
    + simpl. lia.
  - apply (proj1 (proj2 (proj2 (generate_password_failures
                                  1 lower_upper "" (tape [5]))))).
    + reflexivity.
    + simpl. lia.
Defined.

Lemma generate_password_error_surface_witness :
  exists e e',
    generate_password 12 [] "" (tape [5]) = (Raise e, tape [5]) /\
    generate_password 1 lower_upper lower_upper_pool (tape [5]) = (Raise e', tape [5]) /\
    class_of e = ValueError_class /\
    class_of e' = ValueError_class /\
    message e <> message e'.
Proof.
  apply generate_password_error_surface.
  - discriminate.
  - simpl. lia.
Defined.

Lemma generate_password_no_error_witness :
  exists cs src1 pw src',
    mandatory_chars lower_digits (tape [1; 9; 3; 4]) = (Return cs, src1) /\
    (0 <= remaining_draws 4 cs)%Z /\
    generate_password 4 lower_digits lower_digits_pool (tape [1; 9; 3; 4])
    = (Return pw, src').
Proof.
  apply (generate_password_no_error 4 lower_digits lower_digits_pool).
  - discriminate.
  - simpl. lia.
  - exact lower_digits_nonempty.
Defined.

(** C4 as the specification words it fails: the failure on an empty pool
    and the failure on too small a length are exceptions of one and the
    same class. *)
Lemma generate_password_errors_one_class :
  generate_password 12 [] "" (tape [5])
  = (Raise (ValueError
       "Character pool is empty. Enable at least one character type."),
     tape [5]) /\
  generate_password 1 lower_upper lower_upper_pool (tape [5])
  = (Raise (ValueError
       "Length must be at least 2 to include one of each selected type."),
     tape [5]) /\
  class_of (ValueError
       "Character pool is empty. Enable at least one character type.")
  = class_of (ValueError
       "Length must be at least 2 to include one of each selected type.").
Proof. repeat split; vm_compute; reflexivity. Qed.

(** * More on the builder and the generator *)

Lemma build_charset_returns use_lower use_upper use_digits use_symbols :
  exists classes pool,
    build_charset use_lower use_upper use_digits use_symbols
    = Return (classes, pool).
Proof.
  destruct use_lower, use_upper, use_digits, use_symbols;
    eexists _, _; reflexivity.
Qed.

(** X1: the dict built has one entry per flag that is set, under distinct
    names, and the pool has 26, 26, 10 and 26 characters for the flags set.
    The read of ["symbols"] never raises. *)
Theorem build_charset_sizes (use_lower use_upper use_digits use_symbols : bool) :
  exists classes pool,
    build_charset use_lower use_upper use_digits use_symbols
      = Return (classes, pool) /\
    len classes = Nat.b2n use_lower + Nat.b2n use_upper
                  + Nat.b2n use_digits + Nat.b2n use_symbols /\
    NoDup (map fst classes) /\
    String.length pool = 26 * Nat.b2n use_lower + 26 * Nat.b2n use_upper
                         + 10 * Nat.b2n use_digits + 26 * Nat.b2n use_symbols.
Proof.
  destruct use_lower, use_upper, use_digits, use_symbols;
    (eexists _, _; split; [vm_compute; reflexivity|];
     split; [reflexivity|]; split; [|reflexivity];
     simpl;
     repeat (apply NoDup_cons_2;
             [rewrite ?elem_of_cons, elem_of_nil; intuition discriminate|]);
     apply NoDup_nil_2).
Qed.

Section GeneratorMore.
Context {S : Type} `{SystemRandom S}.

(** X2: the password returned is a rearrangement of one character of each
    class, in dict order, followed by [length - len(classes)] characters
    of the pool. *)
Theorem generate_password_assembled length classes pool (src : S) :
  pool <> "" -> (Z.of_nat (len classes) <= length)%Z ->
  nonempty_classes classes ->
  exists pw src' cs filler,
    generate_password length classes pool src = (Return pw, src') /\
    Forall2 (fun chars c => char_in c chars) (values classes) cs /\
    Forall (fun c => char_in c pool) filler /\
    Z.of_nat (List.length filler) = (length - Z.of_nat (len classes))%Z /\
    Permutation (String.list_ascii_of_string pw) (cs ++ filler).
Proof.
  intros Hpool Hlen Hne.
  destruct (returns_generate_password length classes pool src Hpool Hlen Hne)
    as (pw & src' & Hrun & cs & filler & Hcs & Hfill & Hn & Hperm).
  exists pw, src', cs, filler. repeat split; try done. lia.
Qed.

(** X4: whatever the pool, related to the classes or not, a character of
    the password is a character of the pool or of one of the classes. *)
Theorem generate_password_chars_origin length classes pool (src : S) :
  pool <> "" -> (Z.of_nat (len classes) <= length)%Z ->
  nonempty_classes classes ->
  exists pw src',
    generate_password length classes pool src = (Return pw, src') /\
    forall c, char_in c pw ->
      char_in c pool \/
      exists name chars, In (name, chars) classes /\ char_in c chars.
Proof.
  intros Hpool Hlen Hne.
  destruct (returns_generate_password length classes pool src Hpool Hlen Hne)
    as (pw & src' & Hrun & cs & filler & Hcs & Hfill & _ & Hperm).
  exists pw, src'. split; [done|].
  intros c Hc. unfold char_in in Hc.
  apply list_elem_of_In in Hc. rewrite Hperm in Hc.
  apply elem_of_app in Hc as [Hc|Hc].
  - right. apply list_elem_of_lookup in Hc as [i Hi].
    destruct (Forall2_lookup_r _ _ _ _ _ Hcs Hi) as (chars & Hchars & Hchar).
    apply list_elem_of_lookup_2, list_elem_of_In, In_values in Hchars
      as [name Hin].
    by exists name, chars.
  - left. rewrite Forall_forall in Hfill. by apply Hfill.
Qed.

(** The draws for the classes stop at the first empty class. *)
Lemma mandatory_chars_empty_class classes (s : S) :
  (exists name, In (name, "") classes) ->
  exists s',
    mandatory_chars classes s
    = (Raise (IndexError "Cannot choose from an empty sequence"), s').
Proof.
  unfold mandatory_chars. revert s.
  induction classes as [|[k v] classes IH]; intros s [name Hin].
  { destruct Hin. }
  simpl. unfold mbind at 1, M_bind.
  destruct v as [|a v].
  { by exists s. }
  destruct (returns_choice (String a v) s) as (c & s1 & -> & _); [done|].
  destruct Hin as [[= _ ?]|Hin].
  destruct (IH s1) as [s' Hs']; [by exists name|].
  exists s'. unfold mbind at 1, M_bind. by rewrite Hs'.
Qed.

(** X3: a dict with an empty class makes the call raise [IndexError], once
    the two guards are passed: no password is returned. *)
Theorem generate_password_empty_class_raises length classes pool (src : S) :
  pool <> "" -> (Z.of_nat (len classes) <= length)%Z ->
  (exists name, In (name, "") classes) ->
  exists src',
    generate_password length classes pool src
    = (Raise (IndexError "Cannot choose from an empty sequence"), src').
Proof.
  intros Hpool Hlen Hempty.
  destruct (generate_password_body length classes pool Hpool Hlen)
    as (_ & _ & ->).
  destruct (mandatory_chars_empty_class classes src Hempty) as [s' Hs'].
  exists s'. unfold mbind at 1, M_bind. by rewrite Hs'.
Qed.

(** X5: when the length is the number of classes nothing is drawn from the
    pool: the password is a rearrangement of the draws for the classes. *)
Theorem generate_password_exact_length classes pool (src : S) :
  pool <> "" -> nonempty_classes classes ->
  exists cs src1 pw src',
    mandatory_chars classes src = (Return cs, src1) /\
    generate_password (Z.of_nat (len classes)) classes pool src
    = (Return pw, src') /\
    Permutation (String.list_ascii_of_string pw) cs.
Proof.
  intros Hpool Hne.
  destruct (generate_password_body (Z.of_nat (len classes)) classes pool Hpool)
    as (_ & _ & ->); [lia|].
  destruct (returns_mandatory_chars classes src Hne) as (cs & src1 & Hcs & HF).
  assert (remaining_draws (Z.of_nat (len classes)) cs = 0%Z) as Hrem.
  { apply Forall2_length in HF. unfold remaining_draws. rewrite <- HF.
    unfold values. rewrite length_map. fold (len classes). lia. }
  destruct (returns_shuffle (cs ++ []) src1) as (chars & src' & Hsh & Hperm).
  exists cs, src1, (join chars), src'. split; [done|]. split.
  - unfold mbind at 1, M_bind. rewrite Hcs, Hrem. simpl.
    unfold mbind at 1, M_bind. simpl.
    unfold mbind at 1, M_bind. by rewrite Hsh.
  - unfold join. rewrite String.list_ascii_of_string_of_list_ascii.
    by rewrite Hperm, app_nil_r.
Qed.
End GeneratorMore.

(** * The yes/no question *)

Section AskYesNo.
Context {E : Type} `{SystemRandom E} `{Runtime}.

Lemma ask_yes_no_loop_skips question default bad good b rest shown :
  Forall (fun line => answer default line = None) bad ->
  answer default good = Some b ->
  ask_yes_no_loop question default (bad ++ good :: rest) shown
  = (Done b, rest, shown ++ retries question bad ++ [Prompt question]).
Proof.
  intros Hbad Hgood. revert shown.
  induction Hbad as [|line bad Hline _ IH]; intros shown; simpl.
  - by rewrite Hgood.
  - rewrite Hline, IH. unfold retries. simpl.
    by rewrite <- !app_assoc.
Qed.

Lemma ask_yes_no_loop_eof question default lines shown :
  Forall (fun line => answer default line = None) lines ->
  ask_yes_no_loop question default lines shown
  = (Abort EOFError, [], shown ++ retries question lines ++ [Prompt question]).
Proof.
  intros Hbad. revert shown.
  induction Hbad as [|line bad Hline _ IH]; intros shown; simpl.
  - reflexivity.
  - rewrite Hline, IH. unfold retries. simpl.
    by rewrite <- !app_assoc.
Qed.


Lemma question_of_eq (prompt : string) (default : bool) :
  prompt +:+ " (" +:+ (if default then "Y/n" else "y/N" : string) +:+ "): "
  = question_of prompt default.
Proof.
  unfold question_of. f_equal. by destruct default.
Qed.

(** X6: the lines that are no answer are passed over, each with the
    question and the reminder; the first line that is an answer decides,
    the lines after it are left unread, and no entropy is drawn. *)
Theorem ask_yes_no_first_answer prompt default bad good b rest shown (e : E) :
  Forall (fun line => answer default line = None) bad ->
  answer default good = Some b ->
  ask_yes_no prompt default (mkWorld (bad ++ good :: rest) shown e)
  = (Done b,
     mkWorld rest
             (shown ++ retries (question_of prompt default) bad
                    ++ [Prompt (question_of prompt default)])
             e).
Proof.
  intros Hbad Hgood. unfold ask_yes_no. simpl.
  rewrite (question_of_eq prompt default).
  by rewrite (ask_yes_no_loop_skips _ _ bad good b rest shown Hbad Hgood).
Qed.

(** X7: when no line to come is an answer, every line is read and passed
    over, and the call ends with [EOFError] on the question shown last. *)
Theorem ask_yes_no_no_answer prompt default lines shown (e : E) :
  Forall (fun line => answer default line = None) lines ->
  ask_yes_no prompt default (mkWorld lines shown e)
  = (Abort EOFError,
     mkWorld []
             (shown ++ retries (question_of prompt default) lines
                    ++ [Prompt (question_of prompt default)])
             e).
Proof.
  intros Hbad. unfold ask_yes_no. simpl.
  rewrite (question_of_eq prompt default).
  by rewrite (ask_yes_no_loop_eof _ _ lines shown Hbad).
Qed.
End AskYesNo.

(** * What can end the program early *)

Section Aborts.
Context {E : Type} `{SystemRandom E} `{Runtime}.















End Aborts.

(** * Runs of the program *)

Section Runs.
Context {E : Type} `{SystemRandom E} `{Runtime}.

Lemma bind_Done {A B} (m : IO E A) (k : A -> IO E B) w a w' :
  m w = (Done a, w') -> mbind k m w = k a w'.
Proof. intros Hm. unfold mbind, IO_bind. by rewrite Hm. Qed.

(** One step of a run: the first computation is done, go on with the next. *)
Ltac io_step tac :=
  erewrite bind_Done; [|tac]; cbn beta iota delta [stdin log entropy].

Lemma try_Done {A} (body : IO E A) handler w a w' :
  body w = (Done a, w') -> try_except_ValueError body handler w = (Done a, w').
Proof. intros Hb. unfold try_except_ValueError. by rewrite Hb. Qed.

Lemma try_ValueError {A} (body : IO E A) handler w e w' :
  body w = (Abort (Py e), w') -> class_of e = ValueError_class ->
  try_except_ValueError body handler w = handler e w'.
Proof. intros Hb Hc. unfold try_except_ValueError. by rewrite Hb, Hc. Qed.

(** The three ways the length is read. *)
Lemma read_length_accepts line rest shown (e : E) n :
  int (strip line) = Return n -> (0 < n)%Z ->
  read_length (mkWorld (line :: rest) shown e)
  = (Done (Some n),
     mkWorld rest
       (shown ++ [Prompt "Enter password length (suggested 12-24): "]) e).
Proof.
  intros Hint Hn. unfold read_length. apply try_Done.
  unfold mbind, IO_bind, input, pure. simpl. rewrite Hint. simpl.
  by destruct (Z.leb_spec n 0); [lia|].
Qed.

Lemma read_length_rejects line rest shown (e : E) :
  (forall n, int (strip line) = Return n -> (n <= 0)%Z) ->
  read_length (mkWorld (line :: rest) shown e)
  = (Done None,
     mkWorld rest
       (shown ++ [Prompt "Enter password length (suggested 12-24): ";
                  Print (match int (strip line) with
                         | Return _ => "Length must be a positive integer."
                         | Raise _ =>
                             "Invalid input. Please enter a whole number for length."
                         end)]) e).
Proof.
  intros Hbad. unfold read_length.
  destruct (int (strip line)) as [n|e'] eqn:Hint.
  - apply try_Done.
    unfold mbind, IO_bind, input, pure. simpl. rewrite Hint. simpl.
    specialize (Hbad n eq_refl).
    destruct (Z.leb_spec n 0); [|lia].
    unfold print, emit. simpl. by rewrite <- app_assoc.
  - erewrite try_ValueError; [| |by eapply int_raises].
    2:{ unfold mbind, IO_bind, input, pure. simpl. by rewrite Hint. }
    unfold mbind, IO_bind, print, emit. simpl. by rewrite <- app_assoc.
Qed.

Lemma read_how_many_accepts line rest shown (e : E) m :
  how_many_of (strip line) = Return m -> (0 < m)%Z ->
  read_how_many (mkWorld (line :: rest) shown e)
  = (Done (Some m), mkWorld rest (shown ++ [how_many_prompt]) e).
Proof.
  intros Hm Hpos. unfold read_how_many. apply try_Done.
  unfold mbind, IO_bind, input, pure. simpl. rewrite Hm. simpl.
  by destruct (Z.leb_spec m 0); [lia|].
Qed.

Lemma how_many_of_raises s e' :
  how_many_of s = Raise e' -> class_of e' = ValueError_class.
Proof.
  unfold how_many_of. destruct (truthy s); [apply int_raises|discriminate].
Qed.

Lemma read_how_many_rejects line rest shown (e : E) :
  (forall m, how_many_of (strip line) = Return m -> (m <= 0)%Z) ->
  read_how_many (mkWorld (line :: rest) shown e)
  = (Done None,
     mkWorld rest
       (shown ++ [how_many_prompt;
                  Print (match how_many_of (strip line) with
                         | Return _ => "Number of passwords must be at least 1."
                         | Raise _ => "Invalid number. Exiting."
                         end)]) e).
Proof.
  intros Hbad. unfold read_how_many.
  destruct (how_many_of (strip line)) as [m|e'] eqn:Hm.
  - apply try_Done.
    unfold mbind, IO_bind, input, pure. simpl. rewrite Hm. simpl.
    specialize (Hbad m eq_refl).
    destruct (Z.leb_spec m 0); [|lia].
    unfold print, emit. simpl. by rewrite <- app_assoc.
  - erewrite try_ValueError; [| |by eapply how_many_of_raises].
    2:{ unfold mbind, IO_bind, input, pure. simpl. by rewrite Hm. }
    unfold mbind, IO_bind, print, emit. simpl. by rewrite <- app_assoc.
Qed.

(** A question answered at once. *)
Lemma ask_yes_no_answered prompt default line b rest shown (e : E) :
  answer default line = Some b ->
  ask_yes_no prompt default (mkWorld (line :: rest) shown e)
  = (Done b, mkWorld rest (shown ++ [Prompt (question_of prompt default)]) e).
Proof.
  intros Hans. unfold ask_yes_no. cbn [stdin log entropy].
  rewrite (question_of_eq prompt default).
  change (line :: rest) with ([] ++ line :: rest).
  by rewrite (ask_yes_no_loop_skips _ _ [] line b rest shown).
Qed.
(** The loop on a length that fits: one password printed per pass. *)
Lemma password_loop_prints length classes pool passes pwd (w : World E) :
  pool <> "" -> nonempty_classes classes ->
  (Z.of_nat (len classes) <= length)%Z ->
  exists pws e',
    password_loop length classes pool passes pwd w
    = (Done (Some (last_bound pwd pws)),
       mkWorld (stdin w) (log w ++ map Print pws) e') /\
    List.length pws = List.length passes /\
    Forall (assembled length classes pool) pws.
Proof.
  intros Hpool Hne Hlen. revert pwd w.
  induction passes as [|i passes IH]; intros pwd w.
  { exists [], (entropy w). split; [|by split].
    simpl. rewrite app_nil_r. by destruct w. }
  destruct (returns_generate_password length classes pool (entropy w)
              Hpool Hlen Hne) as (pw & src' & Hrun & Hpw).
  destruct (IH (Some pw) (mkWorld (stdin w) (log w ++ [Print pw]) src'))
    as (pws & e' & Hloop & Hcount & Hall).
  exists (pw :: pws), e'. split; [|split; [simpl; congruence|by constructor]].
  simpl password_loop.
  erewrite bind_Done.
  2:{ apply try_Done. erewrite bind_Done; [reflexivity|].
      unfold draw. by rewrite Hrun. }
  cbn [stdin log entropy].
  erewrite bind_Done; [|reflexivity].
  cbn [stdin log entropy]. rewrite Hloop.
  cbn [stdin log entropy]. unfold last_bound.
  rewrite last_cons. simpl. rewrite <- app_assoc. simpl.
  by destruct (last pws).
Qed.

(** The loop on a length that does not fit: the first pass prints the
    error of the generator and leaves [main]. *)
Lemma password_loop_stops length classes pool i passes pwd (w : World E) :
  pool <> "" -> (length < Z.of_nat (len classes))%Z ->
  password_loop length classes pool (i :: passes) pwd w
  = (Done None,
     mkWorld (stdin w)
       (log w ++ [Print ("Error: "
                         +:+ message (insufficient_length_error classes))])
       (entropy w)).
Proof.
  intros Hpool Hlen. destruct w as [lines shown e].
  cbn [stdin log entropy]. simpl password_loop.
  match goal with
  | |- mbind _ ?m ?w = _ =>
      assert (m w = (Done None,
                     mkWorld lines
                       (shown ++ [Print ("Error: " +:+ message
                                    (insufficient_length_error classes))])
                       e)) as Htry
  end.
  { erewrite try_ValueError; cycle 1.
    - unfold mbind at 1, IO_bind, draw. cbn [stdin log entropy].
      by rewrite (generate_password_short length classes pool e).
    - reflexivity.
    - reflexivity. }
  by rewrite (bind_Done _ _ _ _ _ Htry).
Qed.
(** [main] up to the charset: the length is read and accepted and the four
    questions are answered at once. *)
Lemma main_to_charset l0 a1 a2 a3 a4 rest shown (e : E)
    n f1 f2 f3 f4 classes pool :
  int (strip l0) = Return n -> (0 < n)%Z ->
  answer true a1 = Some f1 -> answer true a2 = Some f2 ->
  answer true a3 = Some f3 -> answer true a4 = Some f4 ->
  build_charset f1 f2 f3 f4 = Return (classes, pool) ->
  main (mkWorld (l0 :: a1 :: a2 :: a3 :: a4 :: rest) shown e)
  = main_rest n classes pool
      (mkWorld rest (shown ++ opening ++ questions) e).
Proof.
  intros Hint Hn H1 H2 H3 H4 Hbuilt. unfold main.
  io_step ltac:(reflexivity).
  io_step ltac:(by apply read_length_accepts).
  do 4 io_step ltac:(by apply ask_yes_no_answered).
  io_step ltac:(unfold pure; by rewrite Hbuilt).
  unfold opening, questions. rewrite <- !app_assoc. reflexivity.
Qed.
(** What is built when at least one flag is set. *)
Lemma build_charset_enabled f1 f2 f3 f4 :
  f1 || f2 || f3 || f4 = true ->
  exists classes pool,
    build_charset f1 f2 f3 f4 = Return (classes, pool) /\
    pool <> "" /\ nonempty_classes classes /\
    pool = Spec.pool_of classes /\
    len classes = Nat.b2n f1 + Nat.b2n f2 + Nat.b2n f3 + Nat.b2n f4.
Proof.
  intros Hany.
  destruct (build_charset_returns f1 f2 f3 f4) as (classes & pool & Hbuilt).
  destruct (build_charset_invariants _ _ _ _ _ _ Hbuilt) as [Hne Hcat].
  exists classes, pool. split; [done|].
  destruct f1, f2, f3, f4; try discriminate Hany;
    vm_compute in Hbuilt; injection Hbuilt as <- <-;
    (split; [discriminate|]); (split; [done|]); (split; [done|]);
    reflexivity.
Qed.

(** X9: a first line that [int] does not read as a positive integer ends
    the program at once, with the message for the case; no question is
    asked, the lines after it are left unread, no entropy is drawn. *)
Theorem main_rejects_length l0 rest shown (e : E) :
  (forall n, int (strip l0) = Return n -> (n <= 0)%Z) ->
  main (mkWorld (l0 :: rest) shown e)
  = (Done tt,
     mkWorld rest
       (shown ++ opening
          ++ [Print (match int (strip l0) with
                     | Return _ => "Length must be a positive integer."
                     | Raise _ =>
                         "Invalid input. Please enter a whole number for length."
                     end)])
       e).
Proof.
  intros Hbad. unfold main.
  io_step ltac:(reflexivity).
  io_step ltac:(by apply read_length_rejects).
  unfold opening. rewrite <- !app_assoc. reflexivity.
Qed.

(** X10: four answers "no" end the program with the request to enable a
    character type; the number of passwords is not asked for and the
    generator is not called. *)
Theorem main_nothing_enabled l0 a1 a2 a3 a4 rest shown (e : E) n :
  int (strip l0) = Return n -> (0 < n)%Z ->
  answer true a1 = Some false -> answer true a2 = Some false ->
  answer true a3 = Some false -> answer true a4 = Some false ->
  main (mkWorld (l0 :: a1 :: a2 :: a3 :: a4 :: rest) shown e)
  = (Done tt,
     mkWorld rest
       (shown ++ opening ++ questions
          ++ [Print "You must enable at least one character type. Exiting."])
       e).
Proof.
  intros Hint Hn H1 H2 H3 H4.
  rewrite (main_to_charset l0 a1 a2 a3 a4 rest shown e n
             false false false false [] "") by done.
  unfold main_rest, print, emit. simpl. by rewrite <- !app_assoc.
Qed.

(** X11: with a character type enabled, a line for the number of passwords
    that is not read as a positive integer ends the program with the
    message for the case, before any password is generated. *)
Theorem main_rejects_how_many l0 a1 a2 a3 a4 l5 rest shown (e : E)
    n f1 f2 f3 f4 :
  int (strip l0) = Return n -> (0 < n)%Z ->
  answer true a1 = Some f1 -> answer true a2 = Some f2 ->
  answer true a3 = Some f3 -> answer true a4 = Some f4 ->
  f1 || f2 || f3 || f4 = true ->
  (forall m, how_many_of (strip l5) = Return m -> (m <= 0)%Z) ->
  main (mkWorld (l0 :: a1 :: a2 :: a3 :: a4 :: l5 :: rest) shown e)
  = (Done tt,
     mkWorld rest
       (shown ++ opening ++ questions
          ++ [how_many_prompt;
              Print (match how_many_of (strip l5) with
                     | Return _ => "Number of passwords must be at least 1."
                     | Raise _ => "Invalid number. Exiting."
                     end)])
       e).
Proof.
  intros Hint Hn H1 H2 H3 H4 Hany Hbad.
  destruct (build_charset_enabled f1 f2 f3 f4 Hany)
    as (classes & pool & Hbuilt & Hpool & _).
  rewrite (main_to_charset l0 a1 a2 a3 a4 (l5 :: rest) shown e n
             f1 f2 f3 f4 classes pool) by done.
  unfold main_rest. rewrite (truthy_nonempty pool Hpool).
  cbn [negb].
  io_step ltac:(by apply read_how_many_rejects).
  unfold mret, IO_ret. by rewrite <- !app_assoc.
Qed.

(** X12: a length below the number of character types enabled gets the
    heading and the error of the generator, and nothing else: no password
    is printed, nothing is copied, no entropy is drawn. *)
Theorem main_length_too_short l0 a1 a2 a3 a4 l5 rest shown (e : E)
    n f1 f2 f3 f4 m :
  int (strip l0) = Return n -> (0 < n)%Z ->
  answer true a1 = Some f1 -> answer true a2 = Some f2 ->
  answer true a3 = Some f3 -> answer true a4 = Some f4 ->
  (n < Z.of_nat (Nat.b2n f1 + Nat.b2n f2 + Nat.b2n f3 + Nat.b2n f4))%Z ->
  how_many_of (strip l5) = Return m -> (0 < m)%Z ->
  main (mkWorld (l0 :: a1 :: a2 :: a3 :: a4 :: l5 :: rest) shown e)
  = (Done tt,
     mkWorld rest
       (shown ++ opening ++ questions
          ++ [how_many_prompt; heading;
              Print ("Error: Length must be at least "
                     +:+ pretty (Nat.b2n f1 + Nat.b2n f2
                                 + Nat.b2n f3 + Nat.b2n f4)
                     +:+ " to include one of each selected type.")])
       e).
Proof.
  intros Hint Hn H1 H2 H3 H4 Hshort Hm Hpos.
  assert (f1 || f2 || f3 || f4 = true) as Hany.
  { destruct f1, f2, f3, f4; try done. simpl in Hshort. lia. }
  destruct (build_charset_enabled f1 f2 f3 f4 Hany)
    as (classes & pool & Hbuilt & Hpool & _ & _ & Hcount).
  rewrite (main_to_charset l0 a1 a2 a3 a4 (l5 :: rest) shown e n
             f1 f2 f3 f4 classes pool) by done.
  unfold main_rest. rewrite (truthy_nonempty pool Hpool).
  cbn [negb].
  io_step ltac:(by apply read_how_many_accepts).
  io_step ltac:(reflexivity).
  assert (exists i passes, range m = i :: passes) as (i & passes & ->).
  { unfold range. destruct (Z.to_nat m) eqn:Em; [lia|]. simpl. eauto. }
  io_step ltac:(apply password_loop_stops; [done|by rewrite Hcount]).
  unfold mret, IO_ret, heading, insufficient_length_error. simpl message.
  rewrite Hcount, <- !app_assoc. reflexivity.
Qed.
Lemma assembled_good length classes pw :
  (Z.of_nat (len classes) <= length)%Z ->
  assembled length classes (Spec.pool_of classes) pw ->
  good_password length classes (Spec.pool_of classes) pw.
Proof.
  intros Hlen Hpw. split; [by eapply assembled_length|]. split.
  - intros name chars Hin. by eapply assembled_coverage.
  - intros c. by eapply assembled_in_pool.
Qed.

(** The clipboard step and the end of [main]. *)
Lemma main_closing last_pw lines shown (e : E) :
  (copy_ok <- copy_last (Some last_pw) ;;
   run (if copy_ok : bool
        then print (nl +:+ "The last password was copied to your clipboard.")
        else print (nl +:+ "Tip: install 'pyperclip' (`pip install pyperclip`) to enable clipboard copy.")) ;;
   print "Done.") (mkWorld lines shown e)
  = (Done tt, mkWorld lines (shown ++ closing last_pw) e).
Proof.
  unfold copy_last, closing.
  destruct pyperclip as [copy|]; [destruct (copy last_pw)|];
    unfold mbind, IO_bind, mret, IO_ret, print, emit;
    cbn [stdin log entropy]; by rewrite <- !app_assoc.
Qed.

(** X13: a run that goes through.  With a length of at least the number
    of character types enabled and [m] passwords asked for, [main] prints
    the heading and [m] passwords, each of the length asked for, with a
    character of every enabled class and characters of the pool only; the
    clipboard step is done on the last of them, and the program ends with
    "Done.", the lines after its six left unread. *)
Theorem main_generates l0 a1 a2 a3 a4 l5 rest shown (e : E)
    n f1 f2 f3 f4 m :
  int (strip l0) = Return n ->
  answer true a1 = Some f1 -> answer true a2 = Some f2 ->
  answer true a3 = Some f3 -> answer true a4 = Some f4 ->
  f1 || f2 || f3 || f4 = true ->
  (Z.of_nat (Nat.b2n f1 + Nat.b2n f2 + Nat.b2n f3 + Nat.b2n f4) <= n)%Z ->
  how_many_of (strip l5) = Return m -> (0 < m)%Z ->
  exists classes pool pws last_pw e',
    build_charset f1 f2 f3 f4 = Return (classes, pool) /\
    main (mkWorld (l0 :: a1 :: a2 :: a3 :: a4 :: l5 :: rest) shown e)
    = (Done tt,
       mkWorld rest
         (shown ++ opening ++ questions ++ [how_many_prompt; heading]
            ++ map Print pws ++ closing last_pw)
         e') /\
    Z.of_nat (List.length pws) = m /\
    last pws = Some last_pw /\
    Forall (good_password n classes pool) pws.
Proof.
  intros Hint H1 H2 H3 H4 Hany Hfits Hm Hpos.
  destruct (build_charset_enabled f1 f2 f3 f4 Hany)
    as (classes & pool & Hbuilt & Hpool & Hne & Hcat & Hcount).
  assert (0 < n)%Z as Hn.
  { destruct f1, f2, f3, f4; try discriminate Hany; simpl in Hfits; lia. }
  rewrite <- Hcount in Hfits.
  destruct (password_loop_prints n classes pool (range m) None
              (mkWorld rest (shown ++ opening ++ questions
                               ++ [how_many_prompt; heading]) e)
              Hpool Hne Hfits)
    as (pws & e' & Hloop & Hlen & Hall).
  rewrite length_range in Hlen.
  destruct (last pws) as [last_pw|] eqn:Hlast.
  2:{ apply last_None in Hlast. subst pws. simpl in Hlen. lia. }
  exists classes, pool, pws, last_pw, e'.
  split; [done|]. split; [|split; [lia|split; [done|]]].
  - rewrite (main_to_charset l0 a1 a2 a3 a4 (l5 :: rest) shown e n
               f1 f2 f3 f4 classes pool) by done.
    unfold main_rest. rewrite (truthy_nonempty pool Hpool).
    cbn [negb].
    io_step ltac:(by apply read_how_many_accepts).
    io_step ltac:(reflexivity).
    unfold last_bound in Hloop. rewrite Hlast in Hloop.
    cbn [stdin log entropy] in Hloop.
    rewrite <- !app_assoc in Hloop |- *. simpl app in Hloop |- *.
    io_step ltac:(exact Hloop).
    rewrite main_closing. by rewrite <- !app_assoc.
  - subst pool. eapply Forall_impl; [exact Hall|].
    intros pw. by apply assembled_good.
Qed.
End Runs.

(** * The further theorems at concrete arguments *)

#[local] Existing Instance demo_runtime.

Example main_run :
  main (world ["4"; "y"; "n"; ""; "no"; ""] [1; 9; 3; 4; 5; 6; 7; 8])
  = (Done tt,
     mkWorld []
       (opening ++ questions
          ++ [how_many_prompt; heading; Print "deb9"; Copy "deb9";
              Print (nl +:+ "The last password was copied to your clipboard.");
              Print "Done."])
       (tape [8])).
Proof. vm_compute. reflexivity. Qed.

Lemma generate_password_assembled_witness :
  exists pw src' cs filler,
    generate_password 4 lower_digits lower_digits_pool (tape [1; 9; 3; 4])
    = (Return pw, src') /\
    Forall2 (fun chars c => char_in c chars) (values lower_digits) cs /\
    Forall (fun c => char_in c lower_digits_pool) filler /\
    Z.of_nat (List.length filler) = (4 - Z.of_nat (len lower_digits))%Z /\
    Permutation (String.list_ascii_of_string pw) (cs ++ filler).
Proof.
  apply generate_password_assembled.
  - discriminate.
  - simpl. lia.
  - exact lower_digits_nonempty.
Defined.

Lemma generate_password_empty_class_raises_witness :
  exists src',
    generate_password 2 [("lower", "abc"); ("digits", "")] "abc" (tape [1; 2])
    = (Raise (IndexError "Cannot choose from an empty sequence"), src').
Proof.
  apply generate_password_empty_class_raises.
  - discriminate.
  - simpl. lia.
  - exists "digits". simpl. by right; left.
Defined.

Lemma generate_password_chars_origin_witness :
  exists pw src',
    generate_password 4 lower_digits "XYZ" (tape [1; 9; 3; 4])
    = (Return pw, src') /\
    forall c, char_in c pw ->
      char_in c "XYZ" \/
      exists name chars, In (name, chars) lower_digits /\ char_in c chars.
Proof.
  apply generate_password_chars_origin.
  - discriminate.
  - simpl. lia.
  - exact lower_digits_nonempty.
Defined.

Lemma generate_password_exact_length_witness :
  exists cs src1 pw src',
    mandatory_chars lower_digits (tape [1; 9; 3; 4]) = (Return cs, src1) /\
    generate_password (Z.of_nat (len lower_digits)) lower_digits
                      lower_digits_pool (tape [1; 9; 3; 4])
    = (Return pw, src') /\
    Permutation (String.list_ascii_of_string pw) cs.
Proof.
  apply generate_password_exact_length.
  - discriminate.
  - exact lower_digits_nonempty.
Defined.

Lemma ask_yes_no_first_answer_witness :
  ask_yes_no "Include digits (0-9)?" true
             (mkWorld (["maybe"; "1"] ++ " YES " :: ["n"]) [] (tape [7]))
  = (Done true,
     mkWorld ["n"]
       ([] ++ retries (question_of "Include digits (0-9)?" true) ["maybe"; "1"]
           ++ [Prompt (question_of "Include digits (0-9)?" true)])
       (tape [7])).
Proof.
  apply ask_yes_no_first_answer.
  - repeat constructor.
  - reflexivity.
Defined.

Lemma ask_yes_no_no_answer_witness :
  ask_yes_no "Include digits (0-9)?" false
             (mkWorld ["maybe"; "si"] [] (tape [7]))
  = (Abort EOFError,
     mkWorld []
       ([] ++ retries (question_of "Include digits (0-9)?" false) ["maybe"; "si"]
           ++ [Prompt (question_of "Include digits (0-9)?" false)])
       (tape [7])).
Proof.
  apply ask_yes_no_no_answer. repeat constructor.
Defined.


Lemma main_rejects_length_witness :
  main (mkWorld ["twelve"; "y"] [] (tape [1; 2]))
  = (Done tt,
     mkWorld ["y"]
       ([] ++ opening
           ++ [Print (match int (strip "twelve") with
                      | Return _ => "Length must be a positive integer."
                      | Raise _ =>
                          "Invalid input. Please enter a whole number for length."
                      end)])
       (tape [1; 2])).
Proof.
  apply main_rejects_length. intros n. vm_compute. discriminate.
Defined.

Lemma main_nothing_enabled_witness :
  main (mkWorld ["8"; "n"; "no"; "N"; " n "; "2"] [] (tape [1; 2]))
  = (Done tt,
     mkWorld ["2"]
       ([] ++ opening ++ questions
           ++ [Print "You must enable at least one character type. Exiting."])
       (tape [1; 2])).
Proof.
  apply (main_nothing_enabled "8" "n" "no" "N" " n " ["2"] [] (tape [1; 2]) 8);
    first [reflexivity | lia].
Defined.

Lemma main_rejects_how_many_witness :
  main (mkWorld ["8"; "y"; "n"; "n"; "n"; "0"; "x"] [] (tape [1; 2]))
  = (Done tt,
     mkWorld ["x"]
       ([] ++ opening ++ questions
           ++ [how_many_prompt;
               Print (match how_many_of (strip "0") with
                      | Return _ => "Number of passwords must be at least 1."
                      | Raise _ => "Invalid number. Exiting."
                      end)])
       (tape [1; 2])).
Proof.
  apply (main_rejects_how_many "8" "y" "n" "n" "n" "0" ["x"] [] (tape [1; 2])
           8 true false false false);
    try first [reflexivity | lia].
  intros m. vm_compute. intros [= <-]. discriminate.
Defined.

Lemma main_length_too_short_witness :
  main (mkWorld ["1"; "y"; "y"; "y"; "n"; "2"; "x"] [] (tape [1; 2]))
  = (Done tt,
     mkWorld ["x"]
       ([] ++ opening ++ questions
           ++ [how_many_prompt; heading;
               Print ("Error: Length must be at least "
                      +:+ pretty (Nat.b2n true + Nat.b2n true
                                  + Nat.b2n true + Nat.b2n false)
                      +:+ " to include one of each selected type.")])
       (tape [1; 2])).
Proof.
  apply (main_length_too_short "1" "y" "y" "y" "n" "2" ["x"] [] (tape [1; 2])
           1 true true true false 2);
    first [reflexivity | simpl; lia].
Defined.

Lemma main_generates_witness :
  exists classes pool pws last_pw e',
    build_charset true false true false = Return (classes, pool) /\
    main (mkWorld ["4"; "y"; "n"; ""; "no"; "3"; "x"] []
                  (tape [1; 9; 3; 4; 5; 6; 7; 8]))
    = (Done tt,
       mkWorld ["x"]
         ([] ++ opening ++ questions ++ [how_many_prompt; heading]
             ++ map Print pws ++ closing last_pw)
         e') /\
    Z.of_nat (List.length pws) = 3%Z /\
    last pws = Some last_pw /\
    Forall (good_password 4 classes pool) pws.
Proof.
  apply (main_generates "4" "y" "n" "" "no" "3" ["x"] []
           (tape [1; 9; 3; 4; 5; 6; 7; 8]) 4 true false true false 3);
    first [reflexivity | simpl; lia].
Defined.

(** C9 as the claim words it fails: a non-empty pool and a length of at
    least the number of classes do not keep the call from raising.  With
    the one class ["lower"] empty, both conditions hold at length 1 and
    pool ["a"], the two guards are passed, and the draw from the empty
    class raises [IndexError]. *)
Lemma generate_password_error_on_empty_class :
  ("a" : string) <> "" /\
  (Z.of_nat (len [("lower", "")]) <= 1)%Z /\
  generate_password 1 [("lower", "")] "a" (tape [3])
  = (Raise (IndexError "Cannot choose from an empty sequence"), tape [3]).
Proof.
  split; [discriminate|]. split; [simpl; lia|].
  vm_compute. reflexivity.
Qed.
